(** * rmf_robot_sim_common/utils.hpp

    A shallow embedding of the header [utils.hpp] of [rmf_robot_sim_common]
    (namespace [rmf_plugins_utils]) and the properties of its entity tag,
    its motion parameters, its rate controller, its response builder and
    its Eigen / Ignition-Math conversions. *)

From Stdlib Require Import Reals Lra.
From Stdlib Require Import ZArith QArith Qabs Qround Lqa Lia.
From Stdlib Require Import Bool String List Morphisms Setoid.
From Stdlib Require Import Floats.PrimFloat.
Import ListNotations.

Set Implicit Arguments.

(** ** C++ calls

    A call of one of the functions below may write lines to [std::cerr]
    and then either returns a value or leaves by an exception.  [call A]
    records both: the lines written (one per [std::endl]) and the value
    returned, [None] standing for an exception. *)

Module Call.

Definition call (A : Type) : Type := (list string * option A)%type.

Definition ret {A} (a : A) : call A := ([], Some a).

Definition bind {A B} (m : call A) (k : A -> call B) : call B :=
  match m with
  | (out, Some a) => let (out', r) := k a in (out ++ out', r)
  | (out, None) => (out, None)
  end.

(** [std::cerr << msg << std::endl] *)
Definition cerr_line (msg : string) : call unit := ([msg], Some tt).

Definition value {A} (m : call A) : option A := snd m.

(** The call did not hand a value back to its caller. *)
Definition failed {A} (m : call A) : Prop := value m = None.

(** The call handed back [a]. *)
Definition returns {A} (m : call A) (a : A) : Prop := value m = Some a.

End Call.

Import Call.

Notation "m ;;; k" := (bind m (fun _ => k))
  (at level 61, right associativity).

(** ** Machine integers

    [uint64_t] and [uint8_t] values are the integers of [Z] from [0] to
    [2^64 - 1] and to [2^8 - 1].  The header only stores and returns them:
    it does no arithmetic on them, so no wrap-around occurs. *)

Definition uint64_t := Z.
Definition uint8_t := Z.


(** ** SimEntity *)

Inductive Simulator : Type := Ignition | Gazebo.

Definition Simulator_eqb (a b : Simulator) : bool :=
  match a, b with
  | Ignition, Ignition | Gazebo, Gazebo => true
  | _, _ => false
  end.

Module SimEntity.

(** The struct: all three members are always present. *)
Record t : Type := mk
  { sim_type : Simulator;
    entity : uint64_t;
    name : string }.

(** The object while a constructor runs.  A [uint64_t] member that the
    member-initializer list does not mention holds an indeterminate value
    ([None]) until the body assigns it; a [std::string] member that the
    list does not mention is default-constructed to the empty string. *)
Record under_construction : Type := raw
  { uc_sim_type : Simulator;
    uc_entity : option uint64_t;
    uc_name : string }.

Definition assign_name (nm : string) (o : under_construction) :=
  {| uc_sim_type := uc_sim_type o; uc_entity := uc_entity o; uc_name := nm |}.

Definition assign_entity (en : uint64_t) (o : under_construction) :=
  {| uc_sim_type := uc_sim_type o; uc_entity := Some en; uc_name := uc_name o |}.

(** The constructed object, if no member was left indeterminate. *)
Definition complete (o : under_construction) : option t :=
  match uc_entity o with
  | Some en => Some (mk (uc_sim_type o) en (uc_name o))
  | None => None
  end.

(** [SimEntity(uint64_t en) : sim_type(Ignition), entity(en) { name = empty; }], [empty] being the empty string literal *)
Definition from_entity (en : uint64_t) : option t :=
  let o := {| uc_sim_type := Ignition; uc_entity := Some en; uc_name := EmptyString |} in
  complete (assign_name EmptyString o).

(** [SimEntity(std::string nm) : sim_type(Gazebo), name(nm) { entity = 0; }] *)
Definition from_name (nm : string) : option t :=
  let o := {| uc_sim_type := Gazebo; uc_entity := None; uc_name := nm |} in
  complete (assign_entity 0%Z o).

Definition no_name_msg : string :=
  "SimEntity Ignition object does not hold a name.".
Definition no_entity_msg : string :=
  "SimEntity Gazebo object does not hold a uint64_t entity.".

(** [const std::string& get_name() const] *)
Definition get_name (e : t) : call string :=
  (if negb (Simulator_eqb (sim_type e) Gazebo)
   then cerr_line no_name_msg
   else ret tt) ;;;
  ret (name e).

(** [uint64_t get_entity() const] *)
Definition get_entity (e : t) : call uint64_t :=
  (if negb (Simulator_eqb (sim_type e) Ignition)
   then cerr_line no_entity_msg
   else ret tt) ;;;
  ret (entity e).

End SimEntity.

(** ** Doubles

    The controller's [double] quantities are modelled by the rationals [Q]
    with exact arithmetic: every value is finite, rounding is not
    modelled, and two doubles are the same number when they are [==]. *)

Definition double := Q.

Open Scope Q_scope.

Definition Qltb (a b : Q) : bool := negb (Qle_bool b a).

(** ** MotionParams *)

Record MotionParams : Type := Build_MotionParams
  { v_max : double;
    a_max : double;
    a_nom : double;
    dx_min : double }.

(** The default member initializers of the struct. *)
Definition MotionParams_default : MotionParams :=
  {| v_max := 0.2; a_max := 0.1; a_nom := 0.08; dx_min := 0.01 |}.

(** [MotionParams p; p.v_max = v; p.a_max = a; p.a_nom = n; p.dx_min = d;]
    (or the braced initialisation [MotionParams{v, a, n, d}]): the struct
    declares no constructor, its members are public, and nothing in the
    header inspects the values stored. *)
Definition MotionParams_init (v a n d : double) : call MotionParams :=
  let p := MotionParams_default in
  let p := {| v_max := v; a_max := a_max p; a_nom := a_nom p; dx_min := dx_min p |} in
  let p := {| v_max := v_max p; a_max := a; a_nom := a_nom p; dx_min := dx_min p |} in
  let p := {| v_max := v_max p; a_max := a_max p; a_nom := n; dx_min := dx_min p |} in
  let p := {| v_max := v_max p; a_max := a_max p; a_nom := a_nom p; dx_min := d |} in
  ret p.

(** The invariant the specification asks of a [MotionParams]:
    [v_max > 0], [a_max > 0], [a_nom > 0], [dx_min >= 0], [a_nom <= a_max]. *)
Definition MotionParams_valid (p : MotionParams) : Prop :=
  0 < v_max p /\ 0 < a_max p /\ 0 < a_nom p /\ 0 <= dx_min p /\
  a_nom p <= a_max p.

Definition MotionParams_validb (p : MotionParams) : bool :=
  Qltb 0 (v_max p) && Qltb 0 (a_max p) && Qltb 0 (a_nom p) &&
  Qle_bool 0 (dx_min p) && Qle_bool (a_nom p) (a_max p).

(** Two parameter records holding the same numbers. *)
Definition MotionParams_eq (p q : MotionParams) : Prop :=
  v_max p == v_max q /\ a_max p == a_max q /\ a_nom p == a_nom q /\
  dx_min p == dx_min q.

(** ** RateController *)

Module RateController.

(** Modelled from the spec: [sign] of step 1 of the algorithm of section
    4.1, [-1], [0] or [1]. *)
Definition sign (x : double) : double :=
  match x ?= 0 with
  | Lt => -1
  | Eq => 0
  | Gt => 1
  end.

(** Modelled from the spec: the clipping of step 5, [x] brought into
    [[lo, hi]]. *)
Definition clip (x lo hi : double) : double :=
  if Qltb x lo then lo else if Qltb hi x then hi else x.

(** Modelled from the spec: the velocity update of steps 2, 4 and 5, [v]
    moved toward [target] with the change clipped to magnitude [step]. *)
Definition move_toward (v target step : double) : double :=
  v + clip (target - v) (- step) step.

Section Controller.

(** Modelled from the spec: the small tolerance of the deadband snap of
    step 2, to which the specification gives neither a name nor a value. *)
Variable tolerance : double.

(** Modelled from the spec: step 2 of the algorithm of section 4.1 (the
    deadband), the body of [compute_desired_rate_of_change] being absent
    from the header.  The velocity moves toward [dir * speed_target_dest]
    by at most [a_max * dt]; at [dist == 0] with the velocity within the
    tolerance of that target, the target itself is returned. *)
Definition deadband (dir dist v_actual speed_target_dest : double)
    (p : MotionParams) (dt : double) : double :=
  let target := dir * speed_target_dest in
  if Qeq_bool dist 0 && Qle_bool (Qabs (v_actual - target)) tolerance
  then target
  else move_toward v_actual target (a_max p * dt).

(** Modelled from the spec: step 3 of the algorithm of section 4.1, the
    distance needed to slow from [|v_actual|] to [speed_target_dest] at
    [a_max]; [0] unless the velocity points along [dir] and exceeds the
    destination speed. *)
Definition braking_distance (dir v_actual speed_target_dest : double)
    (p : MotionParams) : double :=
  if Qeq_bool (sign v_actual) dir && Qltb speed_target_dest (Qabs v_actual)
  then (v_actual * v_actual - speed_target_dest * speed_target_dest)
       / (2 * a_max p)
  else 0.

(** Modelled from the spec: steps 1 to 5 of the algorithm of section
    4.1, the body of [compute_desired_rate_of_change] (declared in
    [utils.hpp], defined outside it) being absent.  Inside the deadband
    the velocity is that of [deadband]; outside it the velocity moves
    toward [dir * speed_target_dest] at [a_max] when the remaining
    distance is within the braking distance, toward
    [dir * speed_target_now] at [a_nom] otherwise.  The value returned is
    clipped to magnitude [v_max] on every path: the contract of section
    4.1 asks [|v_new| <= v_max] of every result, and section 9 makes that
    bound binding over the formulas.  Step 6 names a result (rest at the
    goal) and no further computation; it is established among the
    properties. *)
Definition compute_desired_rate_of_change
    (s_target v_actual speed_target_now speed_target_dest : double)
    (p : MotionParams) (dt : double) : double :=
  let dir := sign s_target in
  let dist := Qabs s_target in
  let v_new :=
    if Qltb dist (dx_min p)
    then deadband dir dist v_actual speed_target_dest p dt
    else
      let d_brake := braking_distance dir v_actual speed_target_dest p in
      if Qle_bool dist d_brake
      then move_toward v_actual (dir * speed_target_dest) (a_max p * dt)
      else move_toward v_actual (dir * speed_target_now) (a_nom p * dt) in
  clip v_new (- v_max p) (v_max p).

(** One tick at the goal with a zero destination speed, as a map on the
    velocity. *)
Definition tick_at_goal (speed_target_now : double) (p : MotionParams)
    (dt : double) (v : double) : double :=
  compute_desired_rate_of_change 0 v speed_target_now 0 p dt.

End Controller.

(** The inputs the specification calls valid. *)
Definition valid_call (speed_target_now speed_target_dest : double)
    (p : MotionParams) (dt : double) : Prop :=
  0 <= speed_target_now /\ 0 <= speed_target_dest /\
  MotionParams_valid p /\ 0 < dt.

End RateController.

Import RateController.


(** ** make_response *)

Section Response.

(** [rclcpp::Time] and [simulation_now], which the header declares and
    does not define. *)
Variable Time : Type.
Variable simulation_now : double -> Time.

(** [ResultMsgT]: a message with the four members the template assigns
    and whatever else ([Rest]) the message type carries. *)
Variable Rest : Type.

Record ResultMsg : Type := Build_ResultMsg
  { time : Time;
    request_guid : string;
    source_guid : string;
    status : uint8_t;
    rest : Rest }.

(** The message [std::make_shared<ResultMsgT>()] points to. *)
Variable ResultMsg_default : ResultMsg.

Definition set_time (t : Time) (m : ResultMsg) : ResultMsg :=
  Build_ResultMsg t (request_guid m) (source_guid m) (status m) (rest m).
Definition set_request_guid (g : string) (m : ResultMsg) : ResultMsg :=
  Build_ResultMsg (time m) g (source_guid m) (status m) (rest m).
Definition set_source_guid (g : string) (m : ResultMsg) : ResultMsg :=
  Build_ResultMsg (time m) (request_guid m) g (status m) (rest m).
Definition set_status (s : uint8_t) (m : ResultMsg) : ResultMsg :=
  Build_ResultMsg (time m) (request_guid m) (source_guid m) s (rest m).

(** The message behind the returned [std::shared_ptr]. *)
Definition make_response (status : uint8_t) (sim_time : double)
    (request_guid guid : string) : ResultMsg :=
  let response := ResultMsg_default in
  let response := set_time (simulation_now sim_time) response in
  let response := set_request_guid request_guid response in
  let response := set_source_guid guid response in
  let response := set_status status response in
  response.

End Response.

(** ** Conversions between Eigen and Ignition Math

    The conversions copy coefficients and do no arithmetic of their own, so
    they are stated over any coefficient type [Scalar]. *)

Section Conversions.

Variable Scalar : Type.

(** [Eigen::Vector3d], read by [_v[0]], [_v[1]], [_v[2]]. *)
Record Vector3d : Type := Build_Vector3d
  { v0 : Scalar; v1 : Scalar; v2 : Scalar }.

(** [Eigen::Quaterniond], read and written by [w()], [x()], [y()], [z()]. *)
Record Quaterniond : Type := Build_Quaterniond
  { qw : Scalar; qx : Scalar; qy : Scalar; qz : Scalar }.

(** [Eigen::Matrix3d] and the two Eigen constructors the header calls:
    [Eigen::Quaterniond(matrix)] and [Eigen::Matrix3d(quaternion)]. *)
Variable Matrix3d : Type.
Variable Quaterniond_of_Matrix3d : Matrix3d -> Quaterniond.
Variable Matrix3d_of_Quaterniond : Quaterniond -> Matrix3d.

(** [Eigen::Isometry3d], through its [translation()] and [linear()]
    blocks. *)
Record Isometry3d : Type := Build_Isometry3d
  { translation : Vector3d; linear : Matrix3d }.

(** [Eigen::Isometry3d::Identity()] *)
Variable Isometry3d_Identity : Isometry3d.

(** [IgnVec3T]: a type with [X()], [Y()], [Z()] and an index operator. *)
Record IgnVec3 : Type := Build_IgnVec3
  { vecX : Scalar; vecY : Scalar; vecZ : Scalar }.

Definition IgnVec3_at (v : IgnVec3) (i : nat) : Scalar :=
  match i with
  | O => vecX v
  | S O => vecY v
  | _ => vecZ v
  end.

(** [IgnQuatT]: a type with [W()], [X()], [Y()], [Z()]. *)
Record IgnQuat : Type := Build_IgnQuat
  { quatW : Scalar; quatX : Scalar; quatY : Scalar; quatZ : Scalar }.

(** [IgnPoseT]: a type with [Pos()] and [Rot()]. *)
Record IgnPose : Type := Build_IgnPose
  { Pos : IgnVec3; Rot : IgnQuat }.

(** A default-constructed [IgnPoseT] and an [Eigen::Quaterniond] declared
    without initializer. *)
Variable IgnPose_default : IgnPose.
Variable Quaterniond_uninitialized : Quaterniond.

(** [convert(const Eigen::Quaterniond& _q, IgnQuatT& quat)]: the
    quaternion [quat] after the four assignments. *)
Definition convert_Quaterniond (_q : Quaterniond) (quat : IgnQuat) : IgnQuat :=
  let quat := Build_IgnQuat (qw _q) (quatX quat) (quatY quat) (quatZ quat) in
  let quat := Build_IgnQuat (quatW quat) (qx _q) (quatY quat) (quatZ quat) in
  let quat := Build_IgnQuat (quatW quat) (quatX quat) (qy _q) (quatZ quat) in
  let quat := Build_IgnQuat (quatW quat) (quatX quat) (quatY quat) (qz _q) in
  quat.

(** [convert(const Eigen::Vector3d& _v, IgnVec3T& vec)]: the vector [vec]
    after the three assignments. *)
Definition convert_Vector3d (_v : Vector3d) (vec : IgnVec3) : IgnVec3 :=
  let vec := Build_IgnVec3 (v0 _v) (vecY vec) (vecZ vec) in
  let vec := Build_IgnVec3 (vecX vec) (v1 _v) (vecZ vec) in
  let vec := Build_IgnVec3 (vecX vec) (vecY vec) (v2 _v) in
  vec.

Definition convert_vec (_v : IgnVec3) : Vector3d :=
  Build_Vector3d (IgnVec3_at _v 0) (IgnVec3_at _v 1) (IgnVec3_at _v 2).

Definition convert_quat (_q : IgnQuat) : Quaterniond :=
  let quat := Quaterniond_uninitialized in
  let quat := Build_Quaterniond (quatW _q) (qx quat) (qy quat) (qz quat) in
  let quat := Build_Quaterniond (qw quat) (quatX _q) (qy quat) (qz quat) in
  let quat := Build_Quaterniond (qw quat) (qx quat) (quatY _q) (qz quat) in
  let quat := Build_Quaterniond (qw quat) (qx quat) (qy quat) (quatZ _q) in
  quat.

Definition convert_to_pose (_tf : Isometry3d) : IgnPose :=
  let pose := IgnPose_default in
  let pose := Build_IgnPose (convert_Vector3d (translation _tf) (Pos pose))
                            (Rot pose) in
  let pose := Build_IgnPose (Pos pose)
                (convert_Quaterniond (Quaterniond_of_Matrix3d (linear _tf))
                                     (Rot pose)) in
  pose.

Definition convert_pose (_pose : IgnPose) : Isometry3d :=
  let tf := Isometry3d_Identity in
  let tf := Build_Isometry3d (convert_vec (Pos _pose)) (linear tf) in
  let tf := Build_Isometry3d (translation tf)
              (Matrix3d_of_Quaterniond (convert_quat (Rot _pose))) in
  tf.

End Conversions.

(** ** A binary64 instance of the Eigen operations

    The conversions above take Eigen's matrix type and its two
    quaternion/matrix constructors as parameters.  [Binary64] supplies them
    over IEEE binary64 numbers, in the manner of Eigen's
    [toRotationMatrix] and of its assignment of a rotation matrix to a
    quaternion, so that the conversions can be run on concrete poses. *)

Module Binary64.

Local Open Scope float_scope.

Record Matrix3 : Type := Build_Matrix3
  { m00 : float; m01 : float; m02 : float;
    m10 : float; m11 : float; m12 : float;
    m20 : float; m21 : float; m22 : float }.

Definition toRotationMatrix (q : Quaterniond float) : Matrix3 :=
  let w := qw q in let x := qx q in let y := qy q in let z := qz q in
  let tx := 2 * x in let ty := 2 * y in let tz := 2 * z in
  let twx := tx * w in let twy := ty * w in let twz := tz * w in
  let txx := tx * x in let txy := ty * x in let txz := tz * x in
  let tyy := ty * y in let tyz := tz * y in let tzz := tz * z in
  Build_Matrix3
    (1 - (tyy + tzz)) (txy - twz) (txz + twy)
    (txy + twz) (1 - (txx + tzz)) (tyz - twx)
    (txz - twy) (tyz + twx) (1 - (txx + tyy)).

Definition fromRotationMatrix (m : Matrix3) : Quaterniond float :=
  let t := m00 m + m11 m + m22 m in
  if 0 <? t then
    let t := sqrt (t + 1) in
    let w := 0.5 * t in
    let t := 0.5 / t in
    Build_Quaterniond w ((m21 m - m12 m) * t) ((m02 m - m20 m) * t)
                      ((m10 m - m01 m) * t)
  else if m00 m <? m11 m then
    if m11 m <? m22 m then
      let t := sqrt (m22 m - m00 m - m11 m + 1) in
      let z := 0.5 * t in
      let t := 0.5 / t in
      Build_Quaterniond ((m10 m - m01 m) * t) ((m02 m + m20 m) * t)
                        ((m12 m + m21 m) * t) z
    else
      let t := sqrt (m11 m - m22 m - m00 m + 1) in
      let y := 0.5 * t in
      let t := 0.5 / t in
      Build_Quaterniond ((m02 m - m20 m) * t) ((m01 m + m10 m) * t) y
                        ((m21 m + m12 m) * t)
  else
    if m00 m <? m22 m then
      let t := sqrt (m22 m - m00 m - m11 m + 1) in
      let z := 0.5 * t in
      let t := 0.5 / t in
      Build_Quaterniond ((m10 m - m01 m) * t) ((m02 m + m20 m) * t)
                        ((m12 m + m21 m) * t) z
    else
      let t := sqrt (m00 m - m11 m - m22 m + 1) in
      let x := 0.5 * t in
      let t := 0.5 / t in
      Build_Quaterniond ((m21 m - m12 m) * t) x ((m10 m + m01 m) * t)
                        ((m20 m + m02 m) * t).

Definition identity3 : Matrix3 := Build_Matrix3 1 0 0 0 1 0 0 0 1.

Definition Identity : Isometry3d float Matrix3 :=
  Build_Isometry3d (Build_Vector3d 0 0 0) identity3.

(** A half turn about the z axis, displaced by [(1.5, -2, 0.25)]. *)
Definition half_turn_z : Isometry3d float Matrix3 :=
  Build_Isometry3d (Build_Vector3d 1.5 (-2) 0.25)
                   (Build_Matrix3 (-1) 0 0 0 (-1) 0 0 0 1).

Definition IgnPose_zero : IgnPose float :=
  Build_IgnPose (Build_IgnVec3 0 0 0) (Build_IgnQuat 1 0 0 0).

Definition to_pose : Isometry3d float Matrix3 -> IgnPose float :=
  convert_to_pose fromRotationMatrix IgnPose_zero.

Definition of_pose : IgnPose float -> Isometry3d float Matrix3 :=
  convert_pose toRotationMatrix Identity (Build_Quaterniond 0 0 0 0).

End Binary64.

(** ** The Eigen operations in exact arithmetic

    [Exact] supplies the same two Eigen constructors over the real
    numbers: [Eigen::Matrix3d(q)], which is [toRotationMatrix], and
    [Eigen::Quaterniond(m)], which assigns a rotation matrix to a
    quaternion by the branch on the trace and on the largest diagonal
    coefficient.  Eigen is a dependency of the header and not part of the
    repository; the formulas are those of its Geometry module, with every
    operation exact.  What a binary64 run adds to them is rounding. *)

Module Exact.

Local Open Scope R_scope.

Record Matrix3 : Type := Build_Matrix3
  { m00 : R; m01 : R; m02 : R;
    m10 : R; m11 : R; m12 : R;
    m20 : R; m21 : R; m22 : R }.

Definition toRotationMatrix (q : Quaterniond R) : Matrix3 :=
  let w := qw q in let x := qx q in let y := qy q in let z := qz q in
  let tx := 2 * x in let ty := 2 * y in let tz := 2 * z in
  let twx := tx * w in let twy := ty * w in let twz := tz * w in
  let txx := tx * x in let txy := ty * x in let txz := tz * x in
  let tyy := ty * y in let tyz := tz * y in let tzz := tz * z in
  Build_Matrix3
    (1 - (tyy + tzz)) (txy - twz) (txz + twy)
    (txy + twz) (1 - (txx + tzz)) (tyz - twx)
    (txz - twy) (tyz + twx) (1 - (txx + tyy)).

Definition fromRotationMatrix (m : Matrix3) : Quaterniond R :=
  let t := m00 m + m11 m + m22 m in
  if Rlt_dec 0 t then
    let t := R_sqrt.sqrt (t + 1) in
    let w := 0.5 * t in
    let t := 0.5 / t in
    Build_Quaterniond w ((m21 m - m12 m) * t) ((m02 m - m20 m) * t)
                      ((m10 m - m01 m) * t)
  else if Rlt_dec (m00 m) (m11 m) then
    if Rlt_dec (m11 m) (m22 m) then
      let t := R_sqrt.sqrt (m22 m - m00 m - m11 m + 1) in
      let z := 0.5 * t in
      let t := 0.5 / t in
      Build_Quaterniond ((m10 m - m01 m) * t) ((m02 m + m20 m) * t)
                        ((m12 m + m21 m) * t) z
    else
      let t := R_sqrt.sqrt (m11 m - m22 m - m00 m + 1) in
      let y := 0.5 * t in
      let t := 0.5 / t in
      Build_Quaterniond ((m02 m - m20 m) * t) ((m01 m + m10 m) * t) y
                        ((m21 m + m12 m) * t)
  else
    if Rlt_dec (m00 m) (m22 m) then
      let t := R_sqrt.sqrt (m22 m - m00 m - m11 m + 1) in
      let z := 0.5 * t in
      let t := 0.5 / t in
      Build_Quaterniond ((m10 m - m01 m) * t) ((m02 m + m20 m) * t)
                        ((m12 m + m21 m) * t) z
    else
      let t := R_sqrt.sqrt (m00 m - m11 m - m22 m + 1) in
      let x := 0.5 * t in
      let t := 0.5 / t in
      Build_Quaterniond ((m21 m - m12 m) * t) x ((m10 m + m01 m) * t)
                        ((m20 m + m02 m) * t).

(** A normalized quaternion. *)
Definition unit (q : Quaterniond R) : Prop :=
  qw q * qw q + qx q * qx q + qy q * qy q + qz q * qz q = 1.

(** The quaternion of opposite sign, which stands for the same rotation. *)
Definition opposite (q : Quaterniond R) : Quaterniond R :=
  Build_Quaterniond (- qw q) (- qx q) (- qy q) (- qz q).

(** The rigid transform composed of a translation and a quaternion. *)
Definition transform (t : Vector3d R) (q : Quaterniond R)
  : Isometry3d R Matrix3 :=
  Build_Isometry3d t (toRotationMatrix q).

Definition Identity : Isometry3d R Matrix3 :=
  Build_Isometry3d (Build_Vector3d 0 0 0)
                   (Build_Matrix3 1 0 0 0 1 0 0 0 1).

End Exact.

(** * Properties *)

Unset Implicit Arguments.

(** ** SimEntity *)

Module SimEntityFacts.

Import SimEntity.

Lemma from_entity_eq (en : uint64_t) :
  from_entity en = Some (mk Ignition en EmptyString).
Proof. reflexivity. Qed.

Lemma from_name_eq (nm : string) :
  from_name nm = Some (mk Gazebo 0%Z nm).
Proof. reflexivity. Qed.

Lemma get_name_Gazebo (e : t) :
  sim_type e = Gazebo -> get_name e = ret (name e).
Proof. unfold get_name; intros ->; reflexivity. Qed.

Lemma get_name_Ignition (e : t) :
  sim_type e = Ignition -> get_name e = ([no_name_msg], Some (name e)).
Proof. unfold get_name; intros ->; reflexivity. Qed.

Lemma get_entity_Ignition (e : t) :
  sim_type e = Ignition -> get_entity e = ret (entity e).
Proof. unfold get_entity; intros ->; reflexivity. Qed.

Lemma get_entity_Gazebo (e : t) :
  sim_type e = Gazebo -> get_entity e = ([no_entity_msg], Some (entity e)).
Proof. unfold get_entity; intros ->; reflexivity. Qed.

(** C6: an entity constructed from a handle [h] hands [h] back through
    [get_entity], and an entity constructed from a name [s] hands [s] back
    through [get_name]; in both cases nothing is written to [std::cerr].
    The statement holds for every integer [h], in particular for every
    [uint64_t]. *)
Theorem accessor_roundtrip :
  (forall h : uint64_t,
      exists e, from_entity h = Some e /\ get_entity e = ret h) /\
  (forall s : string,
      exists e, from_name s = Some e /\ get_name e = ret s).
Proof.
  split.
  - intros h. eexists. split; [apply from_entity_eq|].
    now rewrite get_entity_Ignition.
  - intros s. eexists. split; [apply from_name_eq|].
    now rewrite get_name_Gazebo.
Qed.

(** C10: each constructor leaves no member indeterminate -- the handle
    constructor stores the empty name, the name constructor stores entity
    [0] -- so construction always yields an object; on any object either
    accessor returns the stored member (it never fails); hence [get_name]
    on a handle-constructed entity returns the empty string and
    [get_entity] on a name-constructed entity returns [0].  The accessors
    are [const] member functions: they are functions of the entity and
    produce no updated entity. *)
Theorem constructors_initialize_both_members :
  (forall en : uint64_t, from_entity en = Some (mk Ignition en EmptyString)) /\
  (forall nm : string, from_name nm = Some (mk Gazebo 0%Z nm)) /\
  (forall e : t, returns (get_name e) (name e)) /\
  (forall e : t, returns (get_entity e) (entity e)) /\
  (forall en : uint64_t,
      exists e, from_entity en = Some e /\ returns (get_name e) EmptyString) /\
  (forall nm : string,
      exists e, from_name nm = Some e /\ returns (get_entity e) 0%Z).
Proof.
  repeat split.
  - intros [[] en nm]; reflexivity.
  - intros [[] en nm]; reflexivity.
  - intros en. eexists. split; [apply from_entity_eq|reflexivity].
  - intros nm. eexists. split; [apply from_name_eq|reflexivity].
Qed.

(** C4, as stated, fails: [get_name] on the entity constructed from the
    handle [7] does not fail; it writes one line to [std::cerr] and returns
    the empty string the constructor stored. *)
Lemma get_name_of_handle_7_returns :
  exists e, from_entity 7%Z = Some e /\
            get_name e = ([no_name_msg], Some EmptyString) /\
            ~ failed (get_name e).
Proof.
  eexists. split; [apply from_entity_eq|]. split; [reflexivity|].
  unfold failed; cbn. discriminate.
Qed.

(** C4, amended: the accessor of the variant that was not constructed
    writes one diagnostic line to [std::cerr] and then returns the member
    the constructor filled in: the empty string for [get_name] on a
    handle-constructed entity, [0] for [get_entity] on a name-constructed
    entity. *)
Theorem wrong_variant_logs_and_returns_default :
  (forall en : uint64_t,
      exists e, from_entity en = Some e /\
                get_name e = ([no_name_msg], Some EmptyString)) /\
  (forall nm : string,
      exists e, from_name nm = Some e /\
                get_entity e = ([no_entity_msg], Some 0%Z)).
Proof.
  split.
  - intros en. eexists. split; [apply from_entity_eq|].
    now rewrite get_name_Ignition.
  - intros nm. eexists. split; [apply from_name_eq|].
    now rewrite get_entity_Gazebo.
Qed.

End SimEntityFacts.

(** ** MotionParams *)

Lemma Qltb_lt (a b : Q) : Qltb a b = true <-> a < b.
Proof.
  unfold Qltb. rewrite negb_true_iff, <- not_true_iff_false, Qle_bool_iff.
  split; [apply Qnot_le_lt | apply Qlt_not_le].
Qed.

Lemma Qltb_ge (a b : Q) : Qltb a b = false <-> b <= a.
Proof.
  unfold Qltb. rewrite negb_false_iff. apply Qle_bool_iff.
Qed.

Lemma MotionParams_validb_spec (p : MotionParams) :
  MotionParams_validb p = true <-> MotionParams_valid p.
Proof.
  unfold MotionParams_validb, MotionParams_valid.
  rewrite !andb_true_iff, !Qltb_lt, !Qle_bool_iff. tauto.
Qed.

Lemma MotionParams_default_valid : MotionParams_valid MotionParams_default.
Proof. apply MotionParams_validb_spec. reflexivity. Qed.

(** C5, as stated, fails: a [MotionParams] with a negative [v_max] and a
    nominal acceleration above the hard limit is constructed without
    complaint. *)
Lemma MotionParams_init_accepts_invalid :
  exists p, MotionParams_init (-1) 0.1 0.5 0.01 = ret p /\
            v_max p = -1 /\ a_max p < a_nom p /\
            ~ MotionParams_valid p.
Proof.
  eexists. split; [reflexivity|]. split; [reflexivity|].
  split; [reflexivity|].
  rewrite <- MotionParams_validb_spec. discriminate.
Qed.

(** C5, amended: [MotionParams] is a plain record of four doubles with no
    validation at construction: whatever four values are given are stored
    unchanged, silently, and the record the default member initializers
    produce ([0.2], [0.1], [0.08], [0.01]) satisfies the invariant. *)
Theorem MotionParams_init_stores_any_values :
  (forall v a n d : double,
      MotionParams_init v a n d = ret (Build_MotionParams v a n d)) /\
  MotionParams_valid MotionParams_default.
Proof.
  split; [reflexivity | apply MotionParams_default_valid].
Qed.

(** ** RateController *)

Module RateControllerFacts.

Lemma Qle_bool_gt (a b : Q) : Qle_bool a b = false <-> b < a.
Proof.
  rewrite <- not_true_iff_false, Qle_bool_iff.
  split; [apply Qnot_le_lt | apply Qlt_not_le].
Qed.

Lemma Qeq_bool_false (a b : Q) : Qeq_bool a b = false <-> ~ a == b.
Proof.
  rewrite <- not_true_iff_false, Qeq_bool_iff. tauto.
Qed.

Lemma Qabs_cases (x : Q) :
  (0 <= x /\ Qabs x == x) \/ (x <= 0 /\ Qabs x == - x).
Proof.
  destruct (Qlt_le_dec x 0) as [H|H].
  - right. split; [lra | apply Qabs_neg; lra].
  - left. split; [exact H | now apply Qabs_pos].
Qed.

Lemma sign_cases (x : Q) :
  (x < 0 /\ sign x = -1) \/ (x == 0 /\ sign x = 0) \/ (0 < x /\ sign x = 1).
Proof.
  unfold sign. destruct (Qcompare_spec x 0); auto.
Qed.

(** Turn the tests of a goal into hypotheses on the numbers tested. *)
Ltac test_on c :=
  let H := fresh "Ht" in
  lazymatch c with
  | Qltb ?a ?b =>
      destruct (Qltb a b) eqn:H; [apply Qltb_lt in H | apply Qltb_ge in H]
  | Qle_bool ?a ?b =>
      destruct (Qle_bool a b) eqn:H;
      [apply Qle_bool_iff in H | apply Qle_bool_gt in H]
  | Qeq_bool ?a ?b =>
      destruct (Qeq_bool a b) eqn:H;
      [apply Qeq_bool_iff in H | apply Qeq_bool_false in H]
  end.

Ltac tests :=
  repeat (match goal with
          | |- context [if ?c then _ else _] => test_on c
          | |- context [?c && _] => test_on c
          | _ : context [if ?c then _ else _] |- _ => test_on c
          | _ : context [?c && _] |- _ => test_on c
          end;
          cbn [andb orb negb] in * ).

Ltac absolute_at x :=
  let H := fresh "Ha" in
  let v := fresh "abs" in
  destruct (Qabs_cases x) as [[? H]|[? H]];
  set (v := Qabs x) in *; clearbody v.

Ltac absolute :=
  repeat match goal with
    | |- context [Qabs ?x] => absolute_at x
    | H0 : context [Qabs ?x] |- _ => absolute_at x
    end.



Lemma step_positive (p : MotionParams) (dt : Q) :
  MotionParams_valid p -> 0 < dt ->
  0 < a_nom p * dt /\ a_nom p * dt <= a_max p * dt.
Proof.
  intros (_ & Ha & Hn & _ & Hna) Hdt. split.
  - now apply Qmult_lt_0_compat.
  - apply Qmult_le_compat_r; lra.
Qed.

(** The concrete scenarios of section 8 of the specification, with the
    default parameters and [dt = 0.1]: a start from rest far from the goal
    gains [a_nom * dt]; inside the deadband the velocity drops by
    [a_max * dt]; a velocity pointing away from the goal turns toward it
    by [a_nom * dt]. *)
Example scenarios (tol : double) :
  compute_desired_rate_of_change tol 5 0 0.2 0 MotionParams_default 0.1
  == 0.008 /\
  compute_desired_rate_of_change tol 0.005 0.15 0.2 0 MotionParams_default 0.1
  == 0.14 /\
  compute_desired_rate_of_change tol (-3) 0.1 0.2 0 MotionParams_default 0.1
  == 0.092.
Proof. repeat split. Qed.



(** The velocity bound and a bound of [a_max * dt] on the change of
    velocity cannot both be kept on every valid input, by this controller
    or by any other function of the six arguments: with the default
    parameters and [dt = 0.1], a current velocity of [1] is [0.8] away
    from every velocity of magnitude at most [v_max = 0.2], and
    [a_max * dt] is [0.01]. *)
Lemma velocity_and_acceleration_bounds_incompatible
    (f : double -> double -> double -> double -> MotionParams -> double ->
         double) :
  valid_call 0.2 0 MotionParams_default 0.1 /\
  ~ (Qabs (f 5 1 0.2 0 MotionParams_default 0.1)
     <= v_max MotionParams_default /\
     Qabs (f 5 1 0.2 0 MotionParams_default 0.1 - 1)
     <= a_max MotionParams_default * 0.1).
Proof.
  split.
  - unfold valid_call, MotionParams_valid; cbn. repeat split; lra.
  - intros [H1 H2].
    apply Qabs_Qle_condition in H1. apply Qabs_Qle_condition in H2.
    cbn [v_max a_max MotionParams_default] in H1, H2. lra.
Qed.

(** At the goal nothing is left to brake for. *)
Lemma braking_distance_at_goal (v : double) (p : MotionParams) :
  braking_distance 0 v 0 p = 0.
Proof.
  unfold braking_distance.
  destruct (sign_cases v) as [[_ ->]|[[Hv ->]|[_ ->]]]; try reflexivity.
  change (Qeq_bool 0 0) with true. cbn [andb].
  destruct (Qltb 0 (Qabs v)) eqn:Hlt; [|reflexivity].
  apply Qltb_lt in Hlt. rewrite Hv in Hlt. discriminate Hlt.
Qed.

Lemma tick_at_goal_unfold (tol n : double) (p : MotionParams) (dt v : double) :
  tick_at_goal tol n p dt v =
  clip (if Qltb 0 (dx_min p)
        then if Qle_bool (Qabs (v - 0 * 0)) tol
             then 0 * 0
             else move_toward v (0 * 0) (a_max p * dt)
        else move_toward v (0 * 0) (a_max p * dt))
       (- v_max p) (v_max p).
Proof.
  unfold tick_at_goal, compute_desired_rate_of_change, deadband.
  change (sign 0) with 0. change (Qabs 0) with 0.
  rewrite braking_distance_at_goal. reflexivity.
Qed.

(** At the goal with a zero destination speed, a velocity within one
    braking step of rest is brought to rest. *)
Lemma tick_at_goal_stops (tol n : double) (p : MotionParams) (dt v : double) :
  MotionParams_valid p -> 0 < dt ->
  Qabs v <= a_max p * dt ->
  tick_at_goal tol n p dt v == 0.
Proof.
  intros Hp Hdt Hv.
  destruct (step_positive p dt Hp Hdt) as [Hs Hle].
  pose proof Hp as (Hvm & _).
  apply Qabs_Qle_condition in Hv.
  rewrite tick_at_goal_unfold.
  set (step := a_max p * dt) in *; clearbody step.
  unfold move_toward, clip. tests; lra.
Qed.

(** Otherwise its magnitude drops by at least one braking step. *)
Lemma tick_at_goal_slows (tol n : double) (p : MotionParams) (dt v : double) :
  MotionParams_valid p -> 0 < dt ->
  a_max p * dt <= Qabs v ->
  Qabs (tick_at_goal tol n p dt v) <= Qabs v - a_max p * dt.
Proof.
  intros Hp Hdt Hv.
  destruct (step_positive p dt Hp Hdt) as [Hs Hle].
  pose proof Hp as (Hvm & _).
  rewrite tick_at_goal_unfold.
  set (step := a_max p * dt) in *; clearbody step.
  unfold move_toward, clip. tests; absolute; lra.
Qed.

Lemma iter_tick_at_goal (tol n : double) (p : MotionParams) (dt : double) :
  MotionParams_valid p -> 0 < dt ->
  forall (k : nat) (v : double),
    Qabs v <= inject_Z (Z.of_nat k) * (a_max p * dt) ->
    Nat.iter k (tick_at_goal tol n p dt) v == 0.
Proof.
  intros Hp Hdt.
  destruct (step_positive p dt Hp Hdt) as [Hs Hle].
  induction k as [|k IH]; intros v Hv.
  - change (inject_Z (Z.of_nat 0)) with 0 in Hv. cbn [Nat.iter nat_rect].
    apply Qabs_Qle_condition in Hv. lra.
  - rewrite Nat.iter_succ_r. apply IH.
    rewrite Nat2Z.inj_succ, <- Z.add_1_r, inject_Z_plus in Hv.
    change (inject_Z 1) with 1 in Hv.
    destruct (Qlt_le_dec (Qabs v) (a_max p * dt)) as [Hsmall|Hbig].
    + assert (H0 : tick_at_goal tol n p dt v == 0)
        by (apply tick_at_goal_stops; auto; lra).
      rewrite H0. change (Qabs 0) with 0.
      apply Qmult_le_0_compat; [|lra].
      change 0 with (inject_Z 0). rewrite <- Zle_Qle. apply Nat2Z.is_nonneg.
    + pose proof (tick_at_goal_slows tol n p dt v Hp Hdt Hbig). lra.
Qed.

Lemma ticks_to_rest (step v : Q) :
  0 < step ->
  Qabs v <= inject_Z (Z.of_nat (Z.to_nat (Qceiling (Qabs v / step)))) * step.
Proof.
  intros Hs.
  assert (Hq : Qabs v / step <=
               inject_Z (Z.of_nat (Z.to_nat (Qceiling (Qabs v / step))))).
  { eapply Qle_trans; [apply Qle_ceiling|].
    rewrite <- Zle_Qle. lia. }
  apply (Qmult_le_compat_r _ _ step) in Hq; [|lra].
  assert (He : Qabs v / step * step == Qabs v) by (field; lra).
  rewrite He in Hq. exact Hq.
Qed.

(** C3: with [s_target == 0] and [speed_target_dest == 0], a controller at
    rest stays exactly at rest, and from any velocity, of either sign,
    repeated ticks reach exactly [0] after finitely many calls and stay
    there. *)
Theorem rest_at_goal (tol speed_target_now : double) (p : MotionParams)
    (dt : double) :
  MotionParams_valid p -> 0 < dt ->
  compute_desired_rate_of_change tol 0 0 speed_target_now 0 p dt == 0 /\
  forall v_actual : double,
    exists k : nat,
      forall m : nat, (k <= m)%nat ->
        Nat.iter m (tick_at_goal tol speed_target_now p dt) v_actual == 0.
Proof.
  intros Hp Hdt.
  destruct (step_positive p dt Hp Hdt) as [Hs Hle].
  assert (Hstep : 0 < a_max p * dt) by lra.
  split.
  - apply (tick_at_goal_stops tol speed_target_now p dt 0 Hp Hdt).
    change (Qabs 0) with 0. lra.
  - intros v.
    exists (Z.to_nat (Qceiling (Qabs v / (a_max p * dt)))).
    intros m Hm. apply iter_tick_at_goal; auto.
    eapply Qle_trans; [apply (ticks_to_rest _ v Hstep)|].
    apply Qmult_le_compat_r; [|lra].
    rewrite <- Zle_Qle. lia.
Qed.

Lemma rest_at_goal_witness :
  MotionParams_valid MotionParams_default /\ 0 < 0.1 /\
  compute_desired_rate_of_change 0 0 0 0.2 0 MotionParams_default 0.1 == 0.
Proof.
  split; [apply MotionParams_default_valid|].
  split; [reflexivity|].
  exact (proj1 (rest_at_goal 0 0.2 MotionParams_default 0.1
                  MotionParams_default_valid eq_refl)).
Defined.

(** After [15] ticks of [0.1] at the goal a velocity of [0.15] is
    exactly [0], and it is not before. *)
Example fifteen_ticks_to_rest :
  Nat.iter 15 (tick_at_goal 0 0.2 MotionParams_default 0.1) 0.15 == 0 /\
  ~ Nat.iter 14 (tick_at_goal 0 0.2 MotionParams_default 0.1) 0.15 == 0.
Proof.
  split; [vm_compute; reflexivity|].
  intros H. vm_compute in H. discriminate H.
Qed.

(** *** The model and the equality of rationals *)

#[local] Instance Qltb_comp : Proper (Qeq ==> Qeq ==> eq) Qltb.
Proof.
  intros a a' Ha b b' Hb. unfold Qltb. now rewrite Ha, Hb.
Qed.

#[local] Instance sign_comp : Proper (Qeq ==> eq) sign.
Proof.
  intros a a' Ha. unfold sign. now rewrite Ha.
Qed.

#[local] Instance clip_comp : Proper (Qeq ==> Qeq ==> Qeq ==> Qeq) clip.
Proof.
  intros x x' Hx lo lo' Hlo hi hi' Hhi. unfold clip.
  rewrite (Qltb_comp _ _ Hx _ _ Hlo), (Qltb_comp _ _ Hhi _ _ Hx).
  destruct (Qltb x' lo'); [exact Hlo|].
  destruct (Qltb hi' x'); assumption.
Qed.

#[local] Instance move_toward_comp :
  Proper (Qeq ==> Qeq ==> Qeq ==> Qeq) move_toward.
Proof.
  intros v v' Hv t t' Ht st st' Hst. unfold move_toward.
  now rewrite Hv, Ht, Hst.
Qed.

Lemma deadband_comp (tol tol' dir dir' dist dist' v v' d d' : double)
    (p p' : MotionParams) (dt dt' : double) :
  tol == tol' -> dir == dir' -> dist == dist' -> v == v' -> d == d' ->
  MotionParams_eq p p' -> dt == dt' ->
  deadband tol dir dist v d p dt == deadband tol' dir' dist' v' d' p' dt'.
Proof.
  intros Htol Hdir Hdist Hv Hd (_ & Ha & _ & _) Hdt. unfold deadband.
  assert (Htarget : dir * d == dir' * d') by now rewrite Hdir, Hd.
  assert (Hres : Qabs (v - dir * d) == Qabs (v' - dir' * d'))
    by now rewrite Hv, Htarget.
  rewrite (Qeqb_comp _ _ Hdist 0 0 (Qeq_refl 0)).
  rewrite (Qleb_comp _ _ Hres _ _ Htol).
  destruct (Qeq_bool dist' 0 && Qle_bool (Qabs (v' - dir' * d')) tol');
    [exact Htarget|].
  now rewrite Hv, Htarget, Ha, Hdt.
Qed.

Lemma braking_distance_comp (dir dir' v v' d d' : double)
    (p p' : MotionParams) :
  dir == dir' -> v == v' -> d == d' -> MotionParams_eq p p' ->
  braking_distance dir v d p == braking_distance dir' v' d' p'.
Proof.
  intros Hdir Hv Hd (_ & Ha & _ & _). unfold braking_distance.
  rewrite (sign_comp _ _ Hv).
  rewrite (Qeqb_comp _ _ (Qeq_refl (sign v')) _ _ Hdir).
  assert (Habs : Qabs v == Qabs v') by now rewrite Hv.
  rewrite (Qltb_comp _ _ Hd _ _ Habs).
  destruct (Qeq_bool (sign v') dir' && Qltb d' (Qabs v')); [|reflexivity].
  now rewrite Hv, Hd, Ha.
Qed.

(** The model respects the equality of rationals: arguments that are the
    same numbers, however written as fractions, give the same number. *)
Lemma compute_desired_rate_of_change_comp
    (tol tol' s_target s_target' v_actual v_actual' speed_target_now
     speed_target_now' speed_target_dest speed_target_dest' : double)
    (p p' : MotionParams) (dt dt' : double) :
  tol == tol' -> s_target == s_target' -> v_actual == v_actual' ->
  speed_target_now == speed_target_now' ->
  speed_target_dest == speed_target_dest' ->
  MotionParams_eq p p' -> dt == dt' ->
  compute_desired_rate_of_change tol s_target v_actual speed_target_now
    speed_target_dest p dt ==
  compute_desired_rate_of_change tol' s_target' v_actual' speed_target_now'
    speed_target_dest' p' dt'.
Proof.
  intros Htol Hs Hv Hn Hd Hp Hdt.
  pose proof Hp as (Hvm & Ha & Han & Hdx).
  unfold compute_desired_rate_of_change.
  assert (Hdist : Qabs s_target == Qabs s_target') by now rewrite Hs.
  assert (Hdir : sign s_target == sign s_target')
    by now rewrite (sign_comp _ _ Hs).
  apply clip_comp; [|now rewrite Hvm | exact Hvm].
  rewrite (Qltb_comp _ _ Hdist _ _ Hdx).
  destruct (Qltb (Qabs s_target') (dx_min p')).
  - now apply deadband_comp.
  - pose proof (braking_distance_comp _ _ _ _ _ _ _ _ Hdir Hv Hd Hp) as Hb.
    rewrite (Qleb_comp _ _ Hdist _ _ Hb).
    destruct (Qle_bool (Qabs s_target')
                (braking_distance (sign s_target') v_actual'
                   speed_target_dest' p')).
    + now rewrite Hv, Hdir, Hd, Ha, Hdt.
    + now rewrite Hv, Hdir, Hn, Han, Hdt.
Qed.

End RateControllerFacts.

(** ** make_response *)

(** C8: whatever the message type initially holds, whatever the clock
    conversion [simulation_now] is, the message built by [make_response]
    carries the given status, the given request identifier as
    [request_guid], the given source identifier as [source_guid] and
    [simulation_now sim_time] as [time]; its other members are those of a
    freshly made message. *)
Theorem make_response_fields (Time Rest : Type)
    (simulation_now : double -> Time) (fresh : ResultMsg Time Rest)
    (st : uint8_t) (sim_time : double) (req src : string) :
  let response := make_response simulation_now fresh st sim_time req src in
  status response = st /\
  request_guid response = req /\
  source_guid response = src /\
  time response = simulation_now sim_time /\
  rest response = rest fresh.
Proof.
  cbv zeta. unfold make_response.
  unfold set_status, set_source_guid, set_request_guid, set_time; cbn.
  repeat split.
Qed.

(** ** Conversions *)

Section ConversionFacts.

Variables Scalar Matrix3d : Type.
Variable of_matrix : Matrix3d -> Quaterniond Scalar.
Variable to_matrix : Quaterniond Scalar -> Matrix3d.
Variable identity : Isometry3d Scalar Matrix3d.
Variable pose0 : IgnPose Scalar.
Variable quat0 : Quaterniond Scalar.

Lemma convert_vec_convert (v : Vector3d Scalar) (vec : IgnVec3 Scalar) :
  convert_vec (convert_Vector3d v vec) = v.
Proof. destruct v; reflexivity. Qed.

Lemma convert_convert_vec (iv vec : IgnVec3 Scalar) :
  convert_Vector3d (convert_vec iv) vec = iv.
Proof. destruct iv; reflexivity. Qed.

Lemma convert_quat_convert (q : Quaterniond Scalar) (quat : IgnQuat Scalar) :
  convert_quat quat0 (convert_Quaterniond q quat) = q.
Proof. destruct q; reflexivity. Qed.

Lemma convert_convert_quat (iq quat : IgnQuat Scalar) :
  convert_Quaterniond (convert_quat quat0 iq) quat = iq.
Proof. destruct iq; reflexivity. Qed.

(** The pose round trip keeps the translation and passes the rotation
    through Eigen's matrix-to-quaternion-to-matrix conversion, nothing
    else. *)
Lemma convert_pose_convert_to_pose (tf : Isometry3d Scalar Matrix3d) :
  convert_pose to_matrix identity quat0 (convert_to_pose of_matrix pose0 tf)
  = Build_Isometry3d (translation tf) (to_matrix (of_matrix (linear tf))).
Proof.
  unfold convert_pose, convert_to_pose; cbn [Pos Rot translation linear].
  now rewrite convert_vec_convert, convert_quat_convert.
Qed.

End ConversionFacts.

(** *** Eigen's two conversions on a normalized quaternion *)

Module ExactFacts.

Import Exact.

Local Open Scope R_scope.

Lemma toRotationMatrix_opposite (q : Quaterniond R) :
  toRotationMatrix (opposite q) = toRotationMatrix q.
Proof.
  destruct q as [w x y z]. unfold toRotationMatrix, opposite; cbn.
  f_equal; ring.
Qed.

Lemma sqrt_pivot (e a : R) :
  e = (2 * a) * (2 * a) -> R_sqrt.sqrt e = 2 * Rabs a.
Proof.
  intros ->. apply sqrt_lem_1.
  - Lra.nra.
  - pose proof (Rabs_pos a). Lra.lra.
  - unfold Rabs. destruct (Rcase_abs a); ring.
Qed.

Lemma half : 0.5 = / 2.
Proof. Lra.lra. Qed.

(** Whichever branch is taken, the pivot is not zero and the quaternion
    read off the rotation matrix of [q] is [q] or its opposite. *)
Ltac pivot a :=
  rewrite !half;
  rewrite (sqrt_pivot _ a) by Lra.nra;
  assert (a <> 0) by Lra.nra;
  unfold Rabs; destruct (Rcase_abs a); [right|left];
  f_equal; field; Lra.lra.

Lemma fromRotationMatrix_toRotationMatrix (q : Quaterniond R) :
  unit q ->
  fromRotationMatrix (toRotationMatrix q) = q \/
  fromRotationMatrix (toRotationMatrix q) = opposite q.
Proof.
  destruct q as [w x y z]. unfold unit; cbn [qw qx qy qz]. intros Hu.
  unfold fromRotationMatrix, toRotationMatrix, opposite.
  cbn [m00 m01 m02 m10 m11 m12 m20 m21 m22 qw qx qy qz].
  repeat match goal with
         | |- context [Rlt_dec ?a ?b] => destruct (Rlt_dec a b)
         end.
  - pivot w.
  - pivot z.
  - pivot y.
  - pivot z.
  - pivot x.
Qed.

(** So the rotation matrix survives the passage through the quaternion. *)
Lemma toRotationMatrix_fromRotationMatrix (q : Quaterniond R) :
  unit q ->
  toRotationMatrix (fromRotationMatrix (toRotationMatrix q))
  = toRotationMatrix q.
Proof.
  intros Hu.
  destruct (fromRotationMatrix_toRotationMatrix q Hu) as [-> | ->];
    [reflexivity | apply toRotationMatrix_opposite].
Qed.

End ExactFacts.

(** In binary64 the same passage rounds: a quarter turn about the z axis
    comes back with [2^-52] in place of the two zeros of its diagonal and
    with every other coefficient, and the translation, as it was. *)
Example quarter_turn_rounds :
  Binary64.of_pose
    (Binary64.to_pose
       (Build_Isometry3d (Build_Vector3d 1.5 (-2) 0.25)
          (Binary64.Build_Matrix3 0 (-1) 0 1 0 0 0 0 1))%float)
  = (Build_Isometry3d (Build_Vector3d 1.5 (-2) 0.25)
       (Binary64.Build_Matrix3 0x1p-52 (-1) 0 1 0x1p-52 0 0 0 1))%float.
Proof. vm_compute. reflexivity. Qed.

(** C9: the conversions of the header copy coefficients without
    arithmetic, so each component-wise round trip -- vector or quaternion,
    starting on the Eigen or on the Ignition side -- returns its input
    exactly, over any coefficient type, and the pose round trip adds
    nothing to Eigen's own passage from the rotation matrix to the
    quaternion and back.  With Eigen's operations exact, every rigid
    transform composed of a translation [t] and a normalized quaternion
    [q], converted by [convert_to_pose] and back by [convert_pose], is
    returned as it was; a binary64 run departs from this by the rounding
    of Eigen's operations and by nothing else. *)
Theorem conversions_roundtrip :
  (forall (Scalar : Type) (v : Vector3d Scalar) (vec : IgnVec3 Scalar),
      convert_vec (convert_Vector3d v vec) = v) /\
  (forall (Scalar : Type) (iv vec : IgnVec3 Scalar),
      convert_Vector3d (convert_vec iv) vec = iv) /\
  (forall (Scalar : Type) (quat0 q : Quaterniond Scalar)
          (quat : IgnQuat Scalar),
      convert_quat quat0 (convert_Quaterniond q quat) = q) /\
  (forall (Scalar : Type) (quat0 : Quaterniond Scalar)
          (iq quat : IgnQuat Scalar),
      convert_Quaterniond (convert_quat quat0 iq) quat = iq) /\
  (forall (Scalar Matrix3d : Type)
          (of_matrix : Matrix3d -> Quaterniond Scalar)
          (to_matrix : Quaterniond Scalar -> Matrix3d)
          (identity : Isometry3d Scalar Matrix3d)
          (pose0 : IgnPose Scalar) (quat0 : Quaterniond Scalar)
          (tf : Isometry3d Scalar Matrix3d),
      convert_pose to_matrix identity quat0
        (convert_to_pose of_matrix pose0 tf)
      = Build_Isometry3d (translation tf)
          (to_matrix (of_matrix (linear tf)))) /\
  (forall (t : Vector3d R) (q : Quaterniond R)
          (identity : Isometry3d R Exact.Matrix3)
          (pose0 : IgnPose R) (quat0 : Quaterniond R),
      Exact.unit q ->
      convert_pose Exact.toRotationMatrix identity quat0
        (convert_to_pose Exact.fromRotationMatrix pose0
           (Exact.transform t q))
      = Exact.transform t q).
Proof.
  split; [|split; [|split; [|split; [|split]]]].
  - intros; apply convert_vec_convert.
  - intros; apply convert_convert_vec.
  - intros; apply convert_quat_convert.
  - intros; apply convert_convert_quat.
  - intros; apply convert_pose_convert_to_pose.
  - intros t q identity pose0 quat0 Hu.
    rewrite convert_pose_convert_to_pose.
    unfold Exact.transform; cbn [translation linear].
    now rewrite ExactFacts.toRotationMatrix_fromRotationMatrix.
Qed.

Lemma conversions_roundtrip_witness :
  Exact.unit (Build_Quaterniond 0 0 0 1)%R /\
  convert_pose Exact.toRotationMatrix Exact.Identity
    (Build_Quaterniond 0 0 0 0)%R
    (convert_to_pose Exact.fromRotationMatrix
       (Build_IgnPose (Build_IgnVec3 0 0 0) (Build_IgnQuat 1 0 0 0))%R
       (Exact.transform (Build_Vector3d 1.5 (-2) 0.25)%R
                        (Build_Quaterniond 0 0 0 1)%R))
  = Exact.transform (Build_Vector3d 1.5 (-2) 0.25)%R
                    (Build_Quaterniond 0 0 0 1)%R.
Proof.
  assert (Hu : Exact.unit (Build_Quaterniond 0 0 0 1)%R)
    by (unfold Exact.unit; cbn; Lra.lra).
  split; [exact Hu|].
  exact (proj2 (proj2 (proj2 (proj2 (proj2 conversions_roundtrip))))
           (Build_Vector3d 1.5 (-2) 0.25)%R (Build_Quaterniond 0 0 0 1)%R
           Exact.Identity
           (Build_IgnPose (Build_IgnVec3 0 0 0) (Build_IgnQuat 1 0 0 0))%R
           (Build_Quaterniond 0 0 0 0)%R Hu).
Defined.

(** * Further properties of the header *)

(** ** SimEntity: on any object *)

Module SimEntityAccess.

Import SimEntity.

(** X1: whatever the members of an entity hold, exactly one of its two
    accessors complains, the one that does not match [sim_type]; the
    other is silent, and both return the stored member.  Reading the name
    and then the handle of any entity therefore writes exactly one line
    to [std::cerr] and yields both members. *)
Theorem one_accessor_complains (e : t) :
  ((sim_type e = Gazebo /\
    get_name e = ret (name e) /\
    get_entity e = ([no_entity_msg], Some (entity e))) \/
   (sim_type e = Ignition /\
    get_name e = ([no_name_msg], Some (name e)) /\
    get_entity e = ret (entity e))) /\
  exists line : string,
    bind (get_name e) (fun n => bind (get_entity e) (fun h => ret (n, h)))
    = ([line], Some (name e, entity e)).
Proof.
  destruct (sim_type e) eqn:Hty.
  - split.
    + right. split; [reflexivity|].
      now rewrite SimEntityFacts.get_name_Ignition,
                  SimEntityFacts.get_entity_Ignition.
    + exists no_name_msg.
      now rewrite SimEntityFacts.get_name_Ignition,
                  SimEntityFacts.get_entity_Ignition.
  - split.
    + left. split; [reflexivity|].
      now rewrite SimEntityFacts.get_name_Gazebo,
                  SimEntityFacts.get_entity_Gazebo.
    + exists no_entity_msg.
      now rewrite SimEntityFacts.get_name_Gazebo,
                  SimEntityFacts.get_entity_Gazebo.
Qed.

(** X2: the two constructors never build the same object and each keeps
    its argument apart: equal results come from equal handles, or from
    equal names, and a handle-built entity differs from every name-built
    one in [sim_type] -- in [sim_type] only when the handle is [0] and the
    name is empty, for then the [entity] and [name] members of the two
    coincide. *)
Theorem constructors_apart :
  (forall h h' : uint64_t, from_entity h = from_entity h' -> h = h') /\
  (forall s s' : string, from_name s = from_name s' -> s = s') /\
  (forall (h : uint64_t) (s : string),
      exists e e',
        from_entity h = Some e /\ from_name s = Some e' /\
        sim_type e <> sim_type e' /\
        ((entity e = entity e' /\ name e = name e') <->
         (h = 0%Z /\ s = EmptyString))).
Proof.
  split; [|split].
  - intros h h' H. rewrite !SimEntityFacts.from_entity_eq in H. congruence.
  - intros s s' H. rewrite !SimEntityFacts.from_name_eq in H. congruence.
  - intros h s. do 2 eexists.
    split; [apply SimEntityFacts.from_entity_eq|].
    split; [apply SimEntityFacts.from_name_eq|].
    cbn. split; [discriminate|]. split; intros [H1 H2]; split; congruence.
Qed.

(** X3: the value a mismatched accessor returns is one a matching accessor
    returns too: [get_entity] on any name-built entity returns what it
    returns on the entity built from handle [0], and [get_name] on any
    handle-built entity returns what it returns on the entity built from
    the empty name.  Only the line on [std::cerr] tells the two apart. *)
Theorem mismatch_value_is_ambiguous :
  (forall s : string,
      exists e e0,
        from_name s = Some e /\ from_entity 0%Z = Some e0 /\
        value (get_entity e) = value (get_entity e0) /\
        fst (get_entity e) <> fst (get_entity e0)) /\
  (forall h : uint64_t,
      exists e e0,
        from_entity h = Some e /\ from_name EmptyString = Some e0 /\
        value (get_name e) = value (get_name e0) /\
        fst (get_name e) <> fst (get_name e0)).
Proof.
  split.
  - intros s. do 2 eexists.
    split; [apply SimEntityFacts.from_name_eq|].
    split; [apply SimEntityFacts.from_entity_eq|].
    split; [reflexivity | discriminate].
  - intros h. do 2 eexists.
    split; [apply SimEntityFacts.from_entity_eq|].
    split; [apply SimEntityFacts.from_name_eq|].
    split; [reflexivity | discriminate].
Qed.

End SimEntityAccess.

(** ** make_response: the message it starts from *)

(** X4: [make_response] assigns all four of [time], [request_guid],
    [source_guid] and [status], so what the freshly made message held in
    them does not reach the response: two fresh messages that agree on
    their other members give the same response. *)
Theorem make_response_overwrites (Time Rest : Type)
    (simulation_now : double -> Time) (fresh fresh' : ResultMsg Time Rest)
    (st : uint8_t) (sim_time : double) (req src : string) :
  rest fresh = rest fresh' ->
  make_response simulation_now fresh st sim_time req src
  = make_response simulation_now fresh' st sim_time req src.
Proof.
  intros H. unfold make_response.
  unfold set_status, set_source_guid, set_request_guid, set_time; cbn.
  now rewrite H.
Qed.

Lemma make_response_overwrites_witness :
  make_response Qfloor (Build_ResultMsg 0%Z "a" "b" 0%Z tt) 1%Z 2.5
    "request" "lift"
  = make_response Qfloor (Build_ResultMsg 9%Z "c" "d" 7%Z tt) 1%Z 2.5
      "request" "lift".
Proof.
  exact (make_response_overwrites Z unit Qfloor
           (Build_ResultMsg 0%Z "a" "b" 0%Z tt)
           (Build_ResultMsg 9%Z "c" "d" 7%Z tt)
           1%Z 2.5 "request"%string "lift"%string eq_refl).
Defined.

(** ** Conversions: what is filled and what is kept *)

Section ConversionMore.

Variables Scalar Matrix3d : Type.
Variable of_matrix : Matrix3d -> Quaterniond Scalar.
Variable to_matrix : Quaterniond Scalar -> Matrix3d.
Variable identity : Isometry3d Scalar Matrix3d.

Lemma convert_Quaterniond_any (q : Quaterniond Scalar)
    (quat quat' : IgnQuat Scalar) :
  convert_Quaterniond q quat = convert_Quaterniond q quat'.
Proof. reflexivity. Qed.

Lemma convert_Vector3d_any (v : Vector3d Scalar) (vec vec' : IgnVec3 Scalar) :
  convert_Vector3d v vec = convert_Vector3d v vec'.
Proof. reflexivity. Qed.

Lemma convert_quat_any (quat0 quat0' : Quaterniond Scalar)
    (iq : IgnQuat Scalar) :
  convert_quat quat0 iq = convert_quat quat0' iq.
Proof. reflexivity. Qed.

Lemma convert_to_pose_parts (pose0 : IgnPose Scalar)
    (tf : Isometry3d Scalar Matrix3d) :
  Pos (convert_to_pose of_matrix pose0 tf)
  = convert_Vector3d (translation tf) (Pos pose0) /\
  Rot (convert_to_pose of_matrix pose0 tf)
  = convert_Quaterniond (of_matrix (linear tf)) (Rot pose0).
Proof. split; reflexivity. Qed.

End ConversionMore.

(** X5: no conversion result depends on what the object it fills held
    before: both [convert] overloads assign every component of their
    destination, [convert_quat] assigns every coefficient of the
    quaternion it declares without initializer, and [convert_to_pose]
    assigns both parts of the pose it default-constructs. *)
Theorem conversions_overwrite (Scalar Matrix3d : Type)
    (of_matrix : Matrix3d -> Quaterniond Scalar) :
  (forall (q : Quaterniond Scalar) (quat quat' : IgnQuat Scalar),
      convert_Quaterniond q quat = convert_Quaterniond q quat') /\
  (forall (v : Vector3d Scalar) (vec vec' : IgnVec3 Scalar),
      convert_Vector3d v vec = convert_Vector3d v vec') /\
  (forall (quat0 quat0' : Quaterniond Scalar) (iq : IgnQuat Scalar),
      convert_quat quat0 iq = convert_quat quat0' iq) /\
  (forall (pose0 pose0' : IgnPose Scalar) (tf : Isometry3d Scalar Matrix3d),
      convert_to_pose of_matrix pose0 tf
      = convert_to_pose of_matrix pose0' tf).
Proof.
  split; [|split; [|split]].
  - apply convert_Quaterniond_any.
  - apply convert_Vector3d_any.
  - apply convert_quat_any.
  - intros pose0 pose0' tf.
    destruct (convert_to_pose_parts Scalar Matrix3d of_matrix pose0 tf)
      as [Hp Hr].
    destruct (convert_to_pose_parts Scalar Matrix3d of_matrix pose0' tf)
      as [Hp' Hr'].
    rewrite (convert_Vector3d_any _ _ _ (Pos pose0')) in Hp.
    rewrite (convert_Quaterniond_any _ _ _ (Rot pose0')) in Hr.
    destruct (convert_to_pose of_matrix pose0 tf),
             (convert_to_pose of_matrix pose0' tf).
    cbn in *. congruence.
Qed.

(** X6: the pose built by [convert_to_pose] carries the transform's
    translation and Eigen's quaternion of its linear part, coefficient for
    coefficient: read back with [convert_vec] and [convert_quat], its
    position is the translation and its rotation is that quaternion, with
    no assumption on Eigen's conversion. *)
Theorem convert_to_pose_carries (Scalar Matrix3d : Type)
    (of_matrix : Matrix3d -> Quaterniond Scalar)
    (pose0 : IgnPose Scalar) (quat0 : Quaterniond Scalar)
    (tf : Isometry3d Scalar Matrix3d) :
  convert_vec (Pos (convert_to_pose of_matrix pose0 tf)) = translation tf /\
  convert_quat quat0 (Rot (convert_to_pose of_matrix pose0 tf))
  = of_matrix (linear tf).
Proof.
  destruct (convert_to_pose_parts Scalar Matrix3d of_matrix pose0 tf)
    as [-> ->].
  split; [apply convert_vec_convert | apply convert_quat_convert].
Qed.

(** X7: a pose converted by [convert_pose] and back by [convert_to_pose]
    keeps its position exactly, in any case, and has its rotation passed
    through Eigen's quaternion-to-matrix-to-quaternion conversion only; it
    is the pose started from whenever that conversion reproduces the
    quaternion. *)
Theorem pose_roundtrip_from_ignition (Scalar Matrix3d : Type)
    (of_matrix : Matrix3d -> Quaterniond Scalar)
    (to_matrix : Quaterniond Scalar -> Matrix3d)
    (identity : Isometry3d Scalar Matrix3d)
    (pose0 : IgnPose Scalar) (quat0 : Quaterniond Scalar)
    (p : IgnPose Scalar) :
  Pos (convert_to_pose of_matrix pose0
         (convert_pose to_matrix identity quat0 p)) = Pos p /\
  convert_quat quat0
    (Rot (convert_to_pose of_matrix pose0
            (convert_pose to_matrix identity quat0 p)))
  = of_matrix (to_matrix (convert_quat quat0 (Rot p))) /\
  (of_matrix (to_matrix (convert_quat quat0 (Rot p)))
   = convert_quat quat0 (Rot p) ->
   convert_to_pose of_matrix pose0 (convert_pose to_matrix identity quat0 p)
   = p).
Proof.
  unfold convert_to_pose, convert_pose; cbn [Pos Rot translation linear].
  split; [apply convert_convert_vec|].
  split; [apply convert_quat_convert|].
  intros H. rewrite H, convert_convert_vec, convert_convert_quat.
  destruct p; reflexivity.
Qed.

Lemma pose_roundtrip_from_ignition_witness :
  Binary64.to_pose
    (Binary64.of_pose
       (Build_IgnPose (Build_IgnVec3 1.5 (-2) 0.25)
                      (Build_IgnQuat 0 0 0 1))%float)
  = (Build_IgnPose (Build_IgnVec3 1.5 (-2) 0.25)
                   (Build_IgnQuat 0 0 0 1))%float.
Proof.
  apply (proj2 (proj2 (pose_roundtrip_from_ignition float Binary64.Matrix3
           Binary64.fromRotationMatrix Binary64.toRotationMatrix
           Binary64.Identity Binary64.IgnPose_zero
           (Build_Quaterniond 0 0 0 0)%float
           (Build_IgnPose (Build_IgnVec3 1.5 (-2) 0.25)
                          (Build_IgnQuat 0 0 0 1))%float))).
  vm_compute. reflexivity.
Defined.

(** In the binary64 instance the hypothesis of X7 is a real one: the
    quaternions [(0, 0, 0, 1)] and [(0, 0, 0, -1)] stand for the same half
    turn, and a pose holding the second comes back holding the first. *)
Example pose_roundtrip_loses_sign :
  Binary64.to_pose
    (Binary64.of_pose
       (Build_IgnPose (Build_IgnVec3 0 0 0) (Build_IgnQuat 0 0 0 (-1)))%float)
  = (Build_IgnPose (Build_IgnVec3 0 0 0) (Build_IgnQuat 0 0 0 1))%float.
Proof. vm_compute. reflexivity. Qed.
